(** * ping-tool.py: a shallow embedding and its verified properties

    The development follows the script top to bottom: the configuration
    constants, [parse_args], [parse_ping_output], [ping_host] and [main].

    Modelling conventions.
    - A Python [str] is a [string]: a sequence of 8-bit code points.  On that
      range the regex class [\d] is exactly the ten characters 0-9.
    - A Python [int] is a [Z]; the interpreter's optional cap on the length of
      decimal conversions is not part of the model.
    - A Python [float] is a binary64 [spec_float] (precision 53, emax 1024).
    - A raised exception is the [Raise] branch of [result].
    - The outside world (the ping subprocess, the order in which the pool
      delivers results, the clock) enters through explicit parameters. *)

From Stdlib Require Import List String Ascii ZArith Lia Bool Arith.
From Stdlib Require Import Permutation Sorted.
From Stdlib Require Import DecimalString DecimalZ DecimalPos.
From Stdlib Require Import SpecFloat.
Import ListNotations.

Local Open Scope list_scope.
Local Open Scope string_scope.

(** ** Python values and exceptions *)

Inductive exn : Type :=
| ValueError (msg : string)
| TypeError (msg : string)
| IndexError (msg : string)
| NotRenderableError
| SystemExit (code : Z).

Inductive result (A : Type) : Type :=
| Ok (a : A)
| Raise (e : exn).

Arguments Ok {A} a.
Arguments Raise {A} e.

Definition bind {A B : Type} (m : result A) (k : A -> result B) : result B :=
  match m with
  | Ok a => k a
  | Raise e => Raise e
  end.

Notation "x <- m ;; k" := (bind m (fun x => k))
  (at level 61, m at next level, right associativity).

(** A dynamically typed value, as stored in the dictionaries of the script. *)
Inductive pyval : Type :=
| PInt (z : Z)
| PFloat (f : spec_float)
| PStr (s : string).

(** ** Strings *)

Definition is_digit (c : ascii) : bool :=
  let n := nat_of_ascii c in (48 <=? n)%nat && (n <=? 57)%nat.

Fixpoint all_chars (p : ascii -> bool) (s : string) : bool :=
  match s with
  | EmptyString => true
  | String c s' => p c && all_chars p s'
  end.

Fixpoint has_char (c : ascii) (s : string) : bool :=
  match s with
  | EmptyString => false
  | String c' s' => Ascii.eqb c c' || has_char c s'
  end.

(** [strip_prefix p s] is [Some rest] when [s = p ++ rest]. *)
Fixpoint strip_prefix (p s : string) : option string :=
  match p with
  | EmptyString => Some s
  | String a p' =>
      match s with
      | EmptyString => None
      | String b s' => if Ascii.eqb a b then strip_prefix p' s' else None
      end
  end.

(** ** The regular expressions of the script

    Every quantifier of the three patterns applies to a one-character atom,
    so the syntax keeps quantifiers on character sets. *)

Inductive charset : Type :=
| CDigit                 (* \d *)
| CDigitDot              (* [\d.] *)
| CChar (c : ascii).     (* an escaped or plain character *)

Definition in_set (cs : charset) (c : ascii) : bool :=
  match cs with
  | CDigit => is_digit c
  | CDigitDot => is_digit c || Ascii.eqb c "."
  | CChar a => Ascii.eqb c a
  end.

Inductive regex : Type :=
| RLit (lit : string)            (* literal text *)
| ROpt (cs : charset)            (* cs?  greedy *)
| RStar (cs : charset)           (* cs*  greedy *)
| RPlus (cs : charset)           (* cs+  greedy *)
| RSeq (r1 r2 : regex)           (* r1 r2 *)
| RGroup (r : regex).            (* ( r ) capturing *)

Declare Scope regex_scope.
Delimit Scope regex_scope with re.
Infix ">>" := RSeq (at level 60, right associativity) : regex_scope.

(** One way of matching at a given start: the captured groups (numbered by
    opening parenthesis), the text matched and the text left unread. *)
Record hit : Type := {
  groups : list string;
  matched : string;
  rest : string
}.

(** All the ways a greedy star can split a text into what it takes and what
    it leaves, longest first: the order in which a backtracking matcher tries
    them. *)
Fixpoint star_splits (cs : charset) (s : string) : list (string * string) :=
  match s with
  | EmptyString => [(EmptyString, s)]
  | String c s' =>
      if in_set cs c
      then (map (fun tr => (String c (fst tr), snd tr)) (star_splits cs s')
            ++ [(EmptyString, s)])%list
      else [(EmptyString, s)]
  end.

Definition plain_hit (tr : string * string) : hit :=
  {| groups := []; matched := fst tr; rest := snd tr |}.

(** [matches r s]: every way [r] matches a prefix of [s], in the priority
    order of Python's backtracking engine. *)
Fixpoint matches (r : regex) (s : string) : list hit :=
  match r with
  | RLit lit =>
      match strip_prefix lit s with
      | Some s' => [plain_hit (lit, s')]
      | None => []
      end
  | ROpt cs =>
      match s with
      | String c s' =>
          if in_set cs c
          then [plain_hit (String c EmptyString, s'); plain_hit (EmptyString, s)]
          else [plain_hit (EmptyString, s)]
      | EmptyString => [plain_hit (EmptyString, s)]
      end
  | RStar cs => map plain_hit (star_splits cs s)
  | RPlus cs =>
      match s with
      | String c s' =>
          if in_set cs c
          then map (fun tr => plain_hit (String c (fst tr), snd tr))
                   (star_splits cs s')
          else []
      | EmptyString => []
      end
  | RSeq r1 r2 =>
      flat_map (fun h1 =>
                  map (fun h2 =>
                         {| groups := (groups h1 ++ groups h2)%list;
                            matched := matched h1 ++ matched h2;
                            rest := rest h2 |})
                      (matches r2 (rest h1)))
               (matches r1 s)
  | RGroup r' =>
      map (fun h => {| groups := matched h :: groups h;
                       matched := matched h;
                       rest := rest h |})
          (matches r' s)
  end.

(** The match the engine reports at a given start: the first in priority. *)
Definition match_at (r : regex) (s : string) : option hit :=
  hd_error (matches r s).

(** [re.search]: the first start position, left to right, with a match; the
    script reads only the groups of the match object. *)
Fixpoint search (r : regex) (s : string) : option (list string) :=
  match match_at r s with
  | Some h => Some (groups h)
  | None =>
      match s with
      | EmptyString => None
      | String _ s' => search r s'
      end
  end.

(** [m.group(k)] for k >= 1. *)
Definition group (k : nat) (caps : list string) : option string :=
  nth_error caps (k - 1).

(** [re.findall] for a pattern without groups: the matched texts, scanning
    left to right and resuming after each match.  [skip] counts the characters
    of the last match still to be stepped over.  (The tool's pattern is a
    non-empty literal; a match of length zero just advances by one.) *)
Fixpoint findall_from (r : regex) (skip : nat) (s : string) : list string :=
  match s with
  | EmptyString =>
      match skip, match_at r s with
      | O, Some h => [matched h]
      | _, _ => []
      end
  | String _ s' =>
      match skip with
      | S k => findall_from r k s'
      | O =>
          match match_at r s with
          | Some h =>
              matched h :: findall_from r (String.length (matched h) - 1) s'
          | None => findall_from r 0 s'
          end
      end
  end.

Definition findall (r : regex) (s : string) : list string :=
  findall_from r 0 s.

(** The number of positions of [s] at which the text [lit] begins: the plain
    reading of "how many times [lit] occurs in [s]". *)
Fixpoint occurrences (lit s : string) : nat :=
  (match strip_prefix lit s with Some _ => 1 | None => 0 end)
  + match s with
    | EmptyString => 0
    | String _ s' => occurrences lit s'
    end.

(** The four patterns of [parse_ping_output], as written in the source. *)
Definition packet_loss_pat : regex :=
  (RGroup (RPlus CDigit >> ROpt (CChar ".") >> RStar CDigit)
   >> RLit "% packet loss")%re.

Definition packet_stats_pat : regex :=
  (RGroup (RPlus CDigit) >> RLit " packets transmitted, "
   >> RGroup (RPlus CDigit) >> RLit " packets received")%re.

Definition rtt_pat : regex :=
  (RLit "round-trip min/avg/max/stddev = "
   >> RGroup (RPlus CDigitDot) >> RLit "/"
   >> RGroup (RPlus CDigitDot) >> RLit "/"
   >> RGroup (RPlus CDigitDot) >> RLit "/"
   >> RGroup (RPlus CDigitDot) >> RLit " ms")%re.

Definition timeout_marker : string := "Request timeout for icmp_seq".

Definition timeout_pat : regex := RLit timeout_marker.

(** ** The builtins [str], [int] and [float] *)

(** [str(n)] for an integer. *)
Definition str_py (n : Z) : string := NilEmpty.string_of_int (Z.to_int n).

(** The characters [int] and [float] strip from both ends. *)
Definition is_space (c : ascii) : bool :=
  let n := nat_of_ascii c in
  ((9 <=? n) && (n <=? 13) || (28 <=? n) && (n <=? 32)
   || (n =? 133) || (n =? 160))%nat.

Fixpoint lstrip (s : string) : string :=
  match s with
  | String c s' => if is_space c then lstrip s' else s
  | EmptyString => s
  end.

Fixpoint rstrip (s : string) : string :=
  match s with
  | EmptyString => EmptyString
  | String c s' =>
      match rstrip s' with
      | EmptyString => if is_space c then EmptyString else String c EmptyString
      | r => String c r
      end
  end.

Definition strip (s : string) : string := rstrip (lstrip s).

(** A leading sign: [(negative, rest)]. *)
Definition split_sign (s : string) : bool * string :=
  match s with
  | String "-" r => (true, r)
  | String "+" r => (false, r)
  | _ => (false, s)
  end.

(** The longest prefix that is a digit part, [digit (["_"] digit)*], with
    the underscores dropped, and what follows it. *)
Fixpoint span_digits (after_digit : bool) (s : string) : string * string :=
  match s with
  | EmptyString => (EmptyString, s)
  | String c s' =>
      if is_digit c then
        let dr := span_digits true s' in (String c (fst dr), snd dr)
      else if after_digit && Ascii.eqb c "_" then
        match s' with
        | String c' _ =>
            if is_digit c' then span_digits false s' else (EmptyString, s)
        | EmptyString => (EmptyString, s)
        end
      else (EmptyString, s)
  end.

(** The number a run of decimal digits denotes. *)
Definition digits_value (ds : string) : N :=
  match NilEmpty.uint_of_string ds with
  | Some u => Pos.of_uint u
  | None => 0%N
  end.

(** [int(text)], base 10. *)
Definition int_py (text : string) : result Z :=
  let sb := split_sign (strip text) in
  match span_digits false (snd sb) with
  | (String _ _ as ds, EmptyString) =>
      let v := Z.of_N (digits_value ds) in
      Ok (if fst sb then (- v)%Z else v)
  | _ => Raise (ValueError "invalid literal for int() with base 10")
  end.

(** *** binary64 *)

Definition prec : Z := 53.
Definition emax : Z := 1024.

Definition b64_div : spec_float -> spec_float -> spec_float := SFdiv prec emax.
Definition b64_ltb : spec_float -> spec_float -> bool := SFltb.
Definition b64_leb : spec_float -> spec_float -> bool := SFleb.

(** An integer as an exact, not yet rounded, operand of a division. *)
Definition exact_operand (neg : bool) (m : positive) : spec_float :=
  S754_finite neg m 0.

(** The binary64 nearest to [m * 10^e10] (ties to even), as [float] computes
    it from a decimal literal: one correctly rounded division of integers. *)
Definition decimal_to_b64 (neg : bool) (m : N) (e10 : Z) : spec_float :=
  match m with
  | N0 => S754_zero neg
  | Npos p =>
      if (0 <=? e10)%Z
      then b64_div (exact_operand neg (p * Z.to_pos (10 ^ e10)))
                   (exact_operand false 1)
      else b64_div (exact_operand neg p)
                   (exact_operand false (Z.to_pos (10 ^ (- e10))))
  end.

Definition b64_zero : spec_float := S754_zero false.
Definition b64_five : spec_float := Eval cbv in decimal_to_b64 false 5 0.

Definition lower (c : ascii) : ascii :=
  let n := nat_of_ascii c in
  if ((65 <=? n) && (n <=? 90))%nat then ascii_of_nat (n + 32) else c.

Fixpoint lower_str (s : string) : string :=
  match s with
  | EmptyString => EmptyString
  | String c s' => String (lower c) (lower_str s')
  end.

(** The exponent part of a float literal: [Some (exponent, rest)]; no
    exponent part reads as exponent 0. *)
Definition float_exponent (s : string) : option (Z * string) :=
  match s with
  | String c s' =>
      if Ascii.eqb (lower c) "e" then
        let sb := split_sign s' in
        match span_digits false (snd sb) with
        | (String _ _ as ds, rest) =>
            let v := Z.of_N (digits_value ds) in
            Some (if fst sb then (- v)%Z else v, rest)
        | _ => None
        end
      else Some (0%Z, s)
  | EmptyString => Some (0%Z, s)
  end.

(** [float(text)]. *)
Definition float_py (text : string) : result spec_float :=
  let bad := Raise (ValueError "could not convert string to float") in
  let sb := split_sign (strip text) in
  let body := snd sb in
  let name := lower_str body in
  if String.eqb name "inf" || String.eqb name "infinity"
  then Ok (S754_infinity (fst sb))
  else if String.eqb name "nan" then Ok S754_nan
  else
    let ip := span_digits false body in
    let fp :=
      match snd ip with
      | String "." r => span_digits false r
      | r => (EmptyString, r)
      end in
    match fst ip ++ fst fp with
    | EmptyString => bad
    | ds =>
        match float_exponent (snd fp) with
        | Some (ex, EmptyString) =>
            Ok (decimal_to_b64 (fst sb) (digits_value ds)
                  (ex - Z.of_nat (String.length (fst fp))))
        | _ => bad
        end
    end.

(** ** Configuration *)

(** A dictionary keeps its keys in insertion order; storing under a key that
    is already present replaces the value in place. *)
Fixpoint dict_set (k v : string) (d : list (string * string))
  : list (string * string) :=
  match d with
  | [] => [(k, v)]
  | (k', v') :: d' =>
      if String.eqb k k' then (k, v) :: d' else (k', v') :: dict_set k v d'
  end.

(** A dictionary display [{k1: v1, k2: v2, ...}], evaluated left to right. *)
Definition dict_literal (entries : list (string * string))
  : list (string * string) :=
  fold_left (fun d kv => dict_set (fst kv) (snd kv) d) entries [].

Definition HOSTS : list (string * string) :=
  dict_literal
    [ ("Modem", "10.0.0.1");
      ("Router", "192.168.1.1");
      ("Google DNS", "8.8.8.8") ].

Definition DISPLAY_ORDER : list string := ["Router"; "Modem"; "Google DNS"].

(** [l.index(x)]. *)
Fixpoint index_py (l : list string) (x : string) : result nat :=
  match l with
  | [] => Raise (ValueError "x is not in list")
  | y :: l' =>
      if String.eqb y x then Ok 0%nat
      else i <- index_py l' x ;; Ok (S i)
  end.

(** ** parse_args *)

Record Namespace : Type := { count : Z }.

(** [cli_count] is the text given with [-c]/[--count], if any.  argparse
    applies [type=int] to it and turns a failed conversion into a usage error
    (exit status 2). *)
Definition parse_args (cli_count : option string) : result Namespace :=
  match cli_count with
  | None => Ok {| count := 10 |}
  | Some text =>
      match int_py text with
      | Ok n => Ok {| count := n |}
      | Raise _ => Raise (SystemExit 2)
      end
  end.

(** ** parse_ping_output *)

Record ParsedStats : Type := {
  packets_transmitted : pyval;
  packets_received : pyval;
  packet_loss : pyval;
  rtt_min : pyval;
  rtt_avg : pyval;
  rtt_max : pyval;
  rtt_stddev : pyval;
  timeout_count : pyval
}.

Definition group_py (k : nat) (caps : list string) : result string :=
  match group k caps with
  | Some g => Ok g
  | None => Raise (IndexError "no such group")
  end.

Definition parse_ping_output (ping_output : string) : result ParsedStats :=
  let packet_loss_re := search packet_loss_pat ping_output in
  let packet_stats_re := search packet_stats_pat ping_output in
  let rtt_re := search rtt_pat ping_output in
  let timeout_count :=
    Z.of_nat (List.length (findall timeout_pat ping_output)) in
  packet_loss <-
    match packet_loss_re with
    | Some m => g <- group_py 1 m ;; f <- float_py g ;; Ok (PFloat f)
    | None => Ok (PStr "Error")
    end ;;
  counts <-
    match packet_stats_re with
    | Some m =>
        g1 <- group_py 1 m ;; transmitted <- int_py g1 ;;
        g2 <- group_py 2 m ;; received <- int_py g2 ;;
        Ok (PInt transmitted, PInt received)
    | None => Ok (PStr "N/A", PStr "N/A")
    end ;;
  rtt_stats <-
    match rtt_re with
    | Some m =>
        g1 <- group_py 1 m ;; g2 <- group_py 2 m ;;
        g3 <- group_py 3 m ;; g4 <- group_py 4 m ;;
        Ok (PStr g1, PStr g2, PStr g3, PStr g4)
    | None => Ok (PStr "N/A", PStr "N/A", PStr "N/A", PStr "N/A")
    end ;;
  let '(r_min, r_avg, r_max, r_stddev) := rtt_stats in
  Ok {| packets_transmitted := fst counts;
        packets_received := snd counts;
        packet_loss := packet_loss;
        rtt_min := r_min;
        rtt_avg := r_avg;
        rtt_max := r_max;
        rtt_stddev := r_stddev;
        timeout_count := PInt timeout_count |}.

(** ** ping_host *)

(** What [subprocess.run] can do. *)
Inductive outcome : Type :=
| Completed (stdout stderr : string)
| TimeoutExpired
| OtherException (description : string).

(** The machine the script runs on: what the subprocess started for a host
    does, given the command and the timeout it was started with. *)
Definition world : Type := string -> list string -> Z -> outcome.

Inductive event : Type :=
| Print (line : string)
| RunPing (command : list string) (timeout : Z)
| MakeDirs (path : string)
| WriteFile (path content : string)
| PrintTable (rows : list (list string)).

Definition host_info : Type := (string * string) * Z.
Definition raw_result : Type := string * string * string.

(** The statement [str(count + 5)] computes a value nobody reads, and the
    platform test guards a [pass]; neither leaves a trace here. *)
Definition ping_host (w : world) (task : host_info)
  : list event * raw_result :=
  let '((name, ip), count) := task in
  let command := ["ping"; "-c"; str_py count; ip] in
  ([Print ("Pinging " ++ name ++ " (" ++ ip ++ ")...");
    RunPing command (count + 10)],
   match w name command (count + 10)%Z with
   | Completed stdout stderr => (name, ip, stdout ++ stderr)
   | TimeoutExpired =>
       (name, ip,
        "Ping command timed out after " ++ str_py (count + 10) ++ " seconds.")
   | OtherException e => (name, ip, "An error occurred: " ++ e)
   end).

(** ** main *)

(** Console output, files and subprocesses are recorded as a trace next to
    the result.  Writing to the log directory is taken to succeed. *)
Definition io (A : Type) : Type := list event * result A.

Definition io_ret {A : Type} (a : A) : io A := ([], Ok a).

Definition io_bind {A B : Type} (m : io A) (k : A -> io B) : io B :=
  match snd m with
  | Ok a => let r := k a in ((fst m ++ fst r)%list, snd r)
  | Raise e => (fst m, Raise e)
  end.

Definition emit (e : event) : io unit := ([e], Ok tt).

Definition lift {A : Type} (r : result A) : io A := ([], r).

Notation "x <~ m ;; k" := (io_bind m (fun x => k))
  (at level 61, m at next level, right associativity).
Notation "m ;;; k" := (io_bind m (fun _ => k))
  (at level 61, right associativity).

Record ReportRow : Type := {
  name : string;
  ip : string;
  stats : ParsedStats      (* the entries merged in by [**parsed_data] *)
}.

(** [list.sort(key=...)]: every key is computed first (an exception there
    leaves the sort), then the elements are put in ascending key order,
    elements with equal keys keeping their relative order. *)
Fixpoint insert_by {A : Type} (x : nat * A) (l : list (nat * A))
  : list (nat * A) :=
  match l with
  | [] => [x]
  | y :: l' =>
      if (fst x <=? fst y)%nat then x :: l else y :: insert_by x l'
  end.

Fixpoint sort_by {A : Type} (l : list (nat * A)) : list (nat * A) :=
  match l with
  | [] => []
  | x :: l' => insert_by x (sort_by l')
  end.

Fixpoint map_result {A B : Type} (f : A -> result B) (l : list A)
  : result (list B) :=
  match l with
  | [] => Ok []
  | x :: l' => y <- f x ;; r <- map_result f l' ;; Ok (y :: r)
  end.

Definition sort_key {A : Type} (key : A -> result nat) (l : list A)
  : result (list A) :=
  keyed <- map_result (fun x => k <- key x ;; Ok (k, x)) l ;;
  Ok (map snd (sort_by keyed)).

(** [name.replace(' ', '_')]. *)
Fixpoint replace_spaces (s : string) : string :=
  match s with
  | EmptyString => EmptyString
  | String c s' =>
      String (if Ascii.eqb c " " then "_"%char else c) (replace_spaces s')
  end.

Definition log_dir : string := "ping_logs".

Definition newline : string := String (ascii_of_nat 10) EmptyString.

Definition log_filename (name : string) : string :=
  log_dir ++ "/" ++ replace_spaces name ++ "_ping_results.txt".

Record config : Type := {
  hosts : list (string * string);
  display_order : list string
}.

Section Main.

(** The two float formatters of the table, [f"{x:.1f}"] and [str(x)], are
    left abstract: no property below depends on the digits they print. *)
Variable format_1f : spec_float -> string.
Variable repr_float : spec_float -> string.

Definition str_val (v : pyval) : string :=
  match v with
  | PInt z => str_py z
  | PFloat f => repr_float f
  | PStr s => s
  end.

(** The packet-loss cell. *)
Definition loss_cell (packet_loss : pyval) : string :=
  match packet_loss with
  | PFloat f =>
      let loss_str := format_1f f in
      if b64_ltb b64_five f then "[red]" ++ loss_str ++ "[/red]"
      else if b64_ltb b64_zero f then "[yellow]" ++ loss_str ++ "[/yellow]"
      else "[green]" ++ loss_str ++ "[/green]"
  | other => "[red]" ++ str_val other ++ "[/red]"
  end.

(** The timeouts cell. *)
Definition timeout_cell (timeout_count : pyval) : result string :=
  let timeout_count_str := str_val timeout_count in
  match timeout_count with
  | PInt n =>
      Ok (if (0 <? n)%Z
          then "[yellow]" ++ timeout_count_str ++ "[/yellow]"
          else timeout_count_str)
  | PFloat f =>
      Ok (if b64_ltb b64_zero f
          then "[yellow]" ++ timeout_count_str ++ "[/yellow]"
          else timeout_count_str)
  | PStr _ =>
      Raise (TypeError "'>' not supported between 'str' and 'int'")
  end.

(** [Table.add_row] takes text cells. *)
Definition renderable (v : pyval) : result string :=
  match v with
  | PStr s => Ok s
  | _ => Raise NotRenderableError
  end.

Definition table_row (res : ReportRow) : result (list string) :=
  let loss_str := loss_cell (packet_loss (stats res)) in
  timeout_count_str <- timeout_cell (timeout_count (stats res)) ;;
  r_min <- renderable (rtt_min (stats res)) ;;
  r_avg <- renderable (rtt_avg (stats res)) ;;
  r_max <- renderable (rtt_max (stats res)) ;;
  r_stddev <- renderable (rtt_stddev (stats res)) ;;
  Ok [ name res; ip res;
       str_val (packets_transmitted (stats res));
       str_val (packets_received (stats res));
       loss_str; timeout_count_str; r_min; r_avg; r_max; r_stddev ].

(** The body of the [for result in pool.imap_unordered(...)] loop, over the
    results in the order the pool delivers them.  Each worker's own trace is
    placed just before the handling of its result. *)
Fixpoint collect (w : world) (delivered : list host_info)
         (all_results : list ReportRow) : io (list ReportRow) :=
  match delivered with
  | [] => io_ret all_results
  | task :: rest =>
      let '(worker_trace, (name, ip, output)) := ping_host w task in
      (worker_trace, Ok tt) ;;;
      emit (Print ("  -> Finished pinging " ++ name ++ " (" ++ ip ++ ").")) ;;;
      emit (WriteFile (log_filename name)
              ("--- Ping results for " ++ name ++ " (" ++ ip ++ ") ---"
               ++ newline ++ newline ++ output)) ;;;
      parsed_data <~ lift (parse_ping_output output) ;;
      collect w rest
        (all_results ++ [{| name := name; ip := ip; stats := parsed_data |}])%list
  end.

(** [main], for a given configuration.  [cli_count] is the command line,
    [now] the formatted clock, [w] the machine, and [delivery] the order in
    which [imap_unordered] hands back the tasks it was given. *)
Definition main_with (cfg : config) (cli_count : option string)
           (now : string) (w : world)
           (delivery : list host_info -> list host_info) : io unit :=
  args <~ lift (parse_args cli_count) ;;
  let ping_tasks := map (fun h => (h, count args)) (hosts cfg) in
  emit (Print ("[bold blue]Ping test started at: " ++ now ++ "[/bold blue]")) ;;;
  emit (Print ("Starting ping test (" ++ str_py (count args)
               ++ " packets each to "
               ++ str_py (Z.of_nat (List.length (hosts cfg)))
               ++ " hosts)...")) ;;;
  emit (MakeDirs log_dir) ;;;
  (if (List.length (hosts cfg) =? 0)%nat
   then lift (Raise (ValueError "Number of processes must be at least 1"))
   else io_ret tt) ;;;
  all_results <~ collect w (delivery ping_tasks) [] ;;
  sorted <~ lift (sort_key (fun x => index_py (display_order cfg) (name x))
                           all_results) ;;
  rows <~ lift (map_result table_row sorted) ;;
  emit (PrintTable rows) ;;;
  emit (Print (newline ++ "[bold green]Detailed logs have been saved to the '"
               ++ log_dir ++ "' directory.[/bold green]")).

Definition main : option string -> string -> world ->
                  (list host_info -> list host_info) -> io unit :=
  main_with {| hosts := HOSTS; display_order := DISPLAY_ORDER |}.

End Main.

(** * Vocabulary of the statements *)

(** [Matches r w caps]: the text [w] is in the language of [r], the groups
    capturing [caps]. *)
Inductive Matches : regex -> string -> list string -> Prop :=
| MLit lit : Matches (RLit lit) lit []
| MOptNone cs : Matches (ROpt cs) "" []
| MOptSome cs c : in_set cs c = true -> Matches (ROpt cs) (String c "") []
| MStar cs w : all_chars (in_set cs) w = true -> Matches (RStar cs) w []
| MPlus cs c w :
    in_set cs c = true -> all_chars (in_set cs) w = true ->
    Matches (RPlus cs) (String c w) []
| MSeq r1 r2 w1 w2 g1 g2 :
    Matches r1 w1 g1 -> Matches r2 w2 g2 ->
    Matches (RSeq r1 r2) (w1 ++ w2) (g1 ++ g2)%list
| MGroup r w g : Matches r w g -> Matches (RGroup r) w (w :: g).

(** [r] matches somewhere inside [s]. *)
Definition contains_match (r : regex) (s : string) : Prop :=
  exists pre w post caps, s = pre ++ w ++ post /\ Matches r w caps.

(** Character classes used in the statements. *)
Definition not_space (c : ascii) : bool := negb (is_space c).

Definition digit_or_dot (c : ascii) : bool := is_digit c || Ascii.eqb c ".".

(** Where a digit part has to stop: at the end of the text or before a
    character that is neither a digit nor an underscore. *)
Definition stops_digits (s : string) : bool :=
  match s with
  | EmptyString => true
  | String c _ => negb (is_digit c) && negb (Ascii.eqb c "_")
  end.

(** A float that is zero, positive or plus infinity. *)
Definition plus_signed (f : spec_float) : bool :=
  match f with
  | S754_zero false | S754_infinity false | S754_finite false _ _ => true
  | _ => false
  end.

(** None of the first [k] characters of [s] is [a]. *)
Fixpoint clear_of (a : ascii) (k : nat) (s : string) : bool :=
  match k, s with
  | S k', String x s' => negb (Ascii.eqb a x) && clear_of a k' s'
  | _, _ => true
  end.

(** Scenario B: a header and two timeout lines, no statistics. *)
Definition scenario_b : string :=
  "PING 10.0.0.1 (10.0.0.1): 56 data bytes" ++ newline
  ++ "Request timeout for icmp_seq 0" ++ newline
  ++ "Request timeout for icmp_seq 1" ++ newline.

(** Scenario A: the statistics line and the round-trip line. *)
Definition stats_line : string :=
  "10 packets transmitted, 10 packets received, 0.0% packet loss".

Definition rtt_line : string :=
  "round-trip min/avg/max/stddev = 1.0/2.0/3.0/0.5 ms".

Definition scenario_a : string := stats_line ++ " ... " ++ rtt_line.

Definition not_digit (c : ascii) : bool := negb (is_digit c).









(** The table a trace prints, and the subprocesses it starts. *)
Fixpoint printed_table (tr : list event) : option (list (list string)) :=
  match tr with
  | [] => None
  | PrintTable rows :: _ => Some rows
  | _ :: tr' => printed_table tr'
  end.

Fixpoint pings_run (tr : list event) : list (list string * Z) :=
  match tr with
  | [] => []
  | RunPing command timeout :: tr' => (command, timeout) :: pings_run tr'
  | _ :: tr' => pings_run tr'
  end.


(** The list [ping_tasks] that [main] builds from the hosts. *)
Definition ping_tasks (cfg : config) (n : Z) : list host_info :=
  map (fun h => (h, n)) (hosts cfg).




(** A world for examples: the modem's ping runs into the timeout, the other
    two hosts answer with the output of scenario A. *)
Definition modem_down : world :=
  fun name _ _ =>
    if String.eqb name "Modem" then TimeoutExpired
    else Completed scenario_a "".

(** A stand-in for the float formatters in examples. *)
Definition fixed_format : spec_float -> string := fun _ => "0.0".






(** ** Vocabulary of the further properties *)

(** The files a trace writes, in order: path and content. *)
Fixpoint files_written (tr : list event) : list (string * string) :=
  match tr with
  | [] => []
  | WriteFile path content :: tr' => (path, content) :: files_written tr'
  | _ :: tr' => files_written tr'
  end.




(** The characters an integer literal for [int] can be made of. *)
Definition int_char (c : ascii) : bool :=
  is_digit c || is_space c || Ascii.eqb c "_" || Ascii.eqb c "+"
  || Ascii.eqb c "-".




(** * Properties *)

(** ** The model at work *)

Example search_backtracks :
  search packet_loss_pat "1.2.3% packet loss" = Some ["2.3"].
Proof. reflexivity. Qed.

Example search_takes_first_line :
  search packet_stats_pat
         "3 packets transmitted, 0 packets received, 9 packets transmitted, 9 packets received"
  = Some ["3"; "0"].
Proof. reflexivity. Qed.

Example findall_two_markers :
  findall timeout_pat scenario_b = [timeout_marker; timeout_marker].
Proof. reflexivity. Qed.

Example int_py_examples :
  int_py "10" = Ok 10%Z /\ int_py " -1_000 " = Ok (-1000)%Z
  /\ int_py "007" = Ok 7%Z
  /\ int_py "" = Raise (ValueError "invalid literal for int() with base 10")
  /\ int_py "1__0"
     = Raise (ValueError "invalid literal for int() with base 10").
Proof. repeat apply conj; vm_compute; reflexivity. Qed.

(** 0.1 is 0x1.999999999999ap-4, 100.0 is 0x1.9p+6, and a decimal just
    above 5 rounds to 5.0 itself. *)
Example float_py_examples :
  float_py "0.1" = Ok (S754_finite false 7205759403792794 (-56))
  /\ float_py "100.0" = Ok (S754_finite false 7036874417766400 (-46))
  /\ float_py "12." = float_py "12"
  /\ float_py "5.0000000000000000001" = Ok b64_five
  /\ float_py "1e400" = Ok (S754_infinity false)
  /\ float_py "0.0" = Ok b64_zero
  /\ float_py "." = Raise (ValueError "could not convert string to float").
Proof. repeat apply conj; vm_compute; reflexivity. Qed.

Example str_py_examples :
  str_py 0 = "0" /\ str_py 20 = "20" /\ str_py (-5) = "-5".
Proof. repeat apply conj; reflexivity. Qed.

(** A whole run: the modem does not answer in time, the results arrive in
    reverse order, the table comes out in display order. *)
Example main_modem_down :
  printed_table
    (fst (main fixed_format fixed_format (Some "3") "2024-01-01 00:00:00"
               modem_down (@List.rev host_info)))
  = Some
      [ [ "Router"; "192.168.1.1"; "10"; "10"; "[green]0.0[/green]"; "0";
          "1.0"; "2.0"; "3.0"; "0.5" ];
        [ "Modem"; "10.0.0.1"; "N/A"; "N/A"; "[red]Error[/red]"; "0";
          "N/A"; "N/A"; "N/A"; "N/A" ];
        [ "Google DNS"; "8.8.8.8"; "10"; "10"; "[green]0.0[/green]"; "0";
          "1.0"; "2.0"; "3.0"; "0.5" ] ].
Proof. vm_compute. reflexivity. Qed.

(** ** Strings *)

Lemma append_nil_r (s : string) : s ++ "" = s.
Proof. induction s; simpl; congruence. Qed.

Lemma append_assoc (a b c : string) : (a ++ b) ++ c = a ++ (b ++ c).
Proof. induction a; simpl; congruence. Qed.

Lemma length_append (a b : string) :
  String.length (a ++ b) = (String.length a + String.length b)%nat.
Proof. induction a; simpl; congruence. Qed.


Lemma all_chars_append (p : ascii -> bool) (a b : string) :
  all_chars p (a ++ b) = all_chars p a && all_chars p b.
Proof.
  induction a as [|x a IH]; simpl; [reflexivity|].
  rewrite IH. apply andb_assoc.
Qed.

Lemma all_chars_impl (p q : ascii -> bool) (s : string) :
  (forall c, p c = true -> q c = true) ->
  all_chars p s = true -> all_chars q s = true.
Proof.
  intros Hpq. induction s as [|c s IH]; simpl; [reflexivity|].
  intros H. apply andb_true_iff in H as [Hc Hs].
  rewrite (Hpq _ Hc), (IH Hs). reflexivity.
Qed.


Lemma strip_prefix_spec (p s rest : string) :
  strip_prefix p s = Some rest <-> s = p ++ rest.
Proof.
  revert s. induction p as [|a p IH]; intros s; simpl.
  - split; congruence.
  - destruct s as [|b s]; [split; discriminate|].
    destruct (Ascii.eqb_spec a b) as [->|Hab].
    + rewrite IH. split; congruence.
    + split; [discriminate|]. intros [= ? ?]. congruence.
Qed.

Lemma strip_prefix_append (p rest : string) :
  strip_prefix p (p ++ rest) = Some rest.
Proof. apply strip_prefix_spec. reflexivity. Qed.

(** ** The matcher against a declarative reading of the patterns *)

Lemma star_splits_spec (cs : charset) (s w s' : string) :
  In (w, s') (star_splits cs s) <->
  s = w ++ s' /\ all_chars (in_set cs) w = true.
Proof.
  split.
  - revert w s'. induction s as [|c s IH]; intros w s'; simpl.
    + intros [[= <- <-]|[]]. auto.
    + destruct (in_set cs c) eqn:Hc.
      * rewrite in_app_iff, in_map_iff.
        intros [([w0 s0] & [= <- <-] & H)|[[= <- <-]|[]]]; [|auto].
        destruct (IH _ _ H) as (-> & Hw). simpl. rewrite Hc, Hw. auto.
      * intros [[= <- <-]|[]]. auto.
  - intros (-> & Hw). induction w as [|c w IH]; simpl in *.
    + destruct s' as [|c s']; simpl; [auto|].
      destruct (in_set cs c); [apply in_or_app|]; simpl; auto.
    + apply andb_true_iff in Hw as [Hc Hw]. rewrite Hc.
      apply in_or_app. left. apply in_map_iff. exists (w, s'). auto.
Qed.

Lemma matches_sound (r : regex) :
  forall s h,
    In h (matches r s) ->
    s = matched h ++ rest h /\ Matches r (matched h) (groups h).
Proof.
  induction r as [lit|cs|cs|cs|r1 IH1 r2 IH2|r IH]; intros s h; simpl.
  - destruct (strip_prefix lit s) as [s'|] eqn:E; [|intros []].
    intros [<-|[]]. apply strip_prefix_spec in E.
    split; [assumption|constructor].
  - destruct s as [|c s].
    + intros [<-|[]]. split; [reflexivity|constructor].
    + destruct (in_set cs c) eqn:Hc.
      * intros [<-|[<-|[]]]; (split; [reflexivity|now constructor]).
      * intros [<-|[]]. split; [reflexivity|constructor].
  - rewrite in_map_iff. intros ([w s'] & <- & H).
    apply star_splits_spec in H as (-> & Hw).
    split; [reflexivity|now constructor].
  - destruct s as [|c s]; [intros []|].
    destruct (in_set cs c) eqn:Hc; [|intros []].
    rewrite in_map_iff. intros ([w s'] & <- & H).
    apply star_splits_spec in H as (-> & Hw).
    split; [reflexivity|now constructor].
  - rewrite in_flat_map. intros (h1 & H1 & H2).
    rewrite in_map_iff in H2. destruct H2 as (h2 & <- & H2). simpl.
    destruct (IH1 _ _ H1) as (-> & M1).
    destruct (IH2 _ _ H2) as (E2 & M2).
    split; [now rewrite append_assoc, <- E2|now constructor].
  - rewrite in_map_iff. intros (h' & <- & H). simpl.
    destruct (IH _ _ H) as (-> & M).
    split; [reflexivity|now constructor].
Qed.

Lemma matches_complete (r : regex) (w : string) (caps : list string) :
  Matches r w caps ->
  forall s', In {| groups := caps; matched := w; rest := s' |}
                (matches r (w ++ s')).
Proof.
  induction 1 as [lit|cs|cs c Hc|cs w Hw|cs c w Hc Hw
                 |r1 r2 w1 w2 g1 g2 _ IH1 _ IH2|r w g _ IH];
    intros s'; simpl.
  - rewrite strip_prefix_append. now left.
  - destruct s' as [|c s']; [now left|].
    destruct (in_set cs c); simpl; auto.
  - rewrite Hc. now left.
  - apply in_map_iff. exists (w, s'). split; [reflexivity|].
    apply star_splits_spec. auto.
  - rewrite Hc. apply in_map_iff. exists (w, s'). split; [reflexivity|].
    apply star_splits_spec. auto.
  - apply in_flat_map.
    exists {| groups := g1; matched := w1; rest := w2 ++ s' |}. split.
    + rewrite append_assoc. apply IH1.
    + apply in_map_iff.
      exists {| groups := g2; matched := w2; rest := s' |}.
      split; [reflexivity|apply IH2].
  - apply in_map_iff.
    exists {| groups := g; matched := w; rest := s' |}.
    split; [reflexivity|apply IH].
Qed.

Lemma match_at_sound (r : regex) (s : string) (h : hit) :
  match_at r s = Some h ->
  s = matched h ++ rest h /\ Matches r (matched h) (groups h).
Proof.
  unfold match_at. destruct (matches r s) as [|h' l] eqn:E; [discriminate|].
  intros [= <-]. apply matches_sound. rewrite E. now left.
Qed.

Lemma match_at_complete (r : regex) (w s' : string) (caps : list string) :
  Matches r w caps -> match_at r (w ++ s') <> None.
Proof.
  intros M. unfold match_at.
  pose proof (matches_complete _ _ _ M s') as H.
  destruct (matches r (w ++ s')); [destruct H|discriminate].
Qed.

(** [re.search] finds a match exactly when the text contains one, and what
    it captures comes from a match of the pattern. *)
Lemma search_sound (r : regex) (s : string) (caps : list string) :
  search r s = Some caps ->
  exists pre w post, s = pre ++ w ++ post /\ Matches r w caps.
Proof.
  induction s as [|c s IH]; simpl.
  - destruct (match_at r "") as [h|] eqn:E; [|discriminate].
    intros [= <-]. apply match_at_sound in E as (E & M).
    exists "", (matched h), (rest h). auto.
  - destruct (match_at r (String c s)) as [h|] eqn:E.
    + intros [= <-]. apply match_at_sound in E as (E & M).
      exists "", (matched h), (rest h). auto.
    + intros H. destruct (IH H) as (pre & w & post & -> & M).
      exists (String c pre), w, post. auto.
Qed.

Lemma search_complete (r : regex) (s : string) :
  contains_match r s -> search r s <> None.
Proof.
  intros (pre & w & post & caps & -> & M).
  induction pre as [|c pre IH]; simpl.
  - pose proof (match_at_complete _ _ post _ M) as H.
    destruct (w ++ post); simpl;
      destruct (match_at r _); congruence.
  - destruct (match_at r _); [discriminate|exact IH].
Qed.

Lemma search_none_iff (r : regex) (s : string) :
  search r s = None <-> ~ contains_match r s.
Proof.
  split.
  - intros E C. exact (search_complete _ _ C E).
  - intros N. destruct (search r s) as [caps|] eqn:E; [|reflexivity].
    exfalso. apply N. apply search_sound in E as (pre & w & post & -> & M).
    exists pre, w, post, caps. auto.
Qed.

(** ** binary64 comparisons *)

Lemma SFcompare_antisym (x y : spec_float) (c : comparison) :
  SFcompare x y = Some c -> SFcompare y x = Some (CompOpp c).
Proof.
  destruct x as [sx|sx| |sx mx ex], y as [sy|sy| |sy my ey]; simpl;
    try discriminate;
    try (intros [= <-]; try destruct sx; try destruct sy; reflexivity).
  intros [= <-]. f_equal.
  change (Pos.compare_cont Eq my mx) with (Pos.compare my mx).
  change (Pos.compare_cont Eq mx my) with (Pos.compare mx my).
  rewrite (Z.compare_antisym ex ey), (Pos.compare_antisym mx my).
  destruct sx, sy; try reflexivity;
    destruct (ex ?= ey)%Z; simpl; try reflexivity;
    destruct (mx ?= my)%positive; reflexivity.
Qed.

Lemma b64_leb_not_gt (x y : spec_float) :
  b64_leb x y = true -> b64_ltb y x = false.
Proof.
  unfold b64_leb, b64_ltb, SFleb, SFltb.
  destruct (SFcompare x y) as [c|] eqn:E; [|discriminate].
  rewrite (SFcompare_antisym _ _ _ E). destruct c; simpl; congruence.
Qed.

(** ** The severity colours of the table (claim C4) *)

(** C4.  The colour of the packet-loss cell depends on the packet-loss value
    alone: zero is green; a value above 0 and at most 5, and 5.0 itself, is
    yellow; a value above 5 is red; a value that is not a float (the sentinel
    text) is red.  The timeouts cell is yellow when the count is above 0 and
    plain otherwise. *)
Theorem severity_classification
        (format_1f repr_float : spec_float -> string) :
  (forall sign,
      loss_cell format_1f repr_float (PFloat (S754_zero sign))
      = "[green]" ++ format_1f (S754_zero sign) ++ "[/green]")
  /\ (forall f,
         b64_ltb b64_zero f = true -> b64_leb f b64_five = true ->
         loss_cell format_1f repr_float (PFloat f)
         = "[yellow]" ++ format_1f f ++ "[/yellow]")
  /\ loss_cell format_1f repr_float (PFloat b64_five)
     = "[yellow]" ++ format_1f b64_five ++ "[/yellow]"
  /\ (forall f,
         b64_ltb b64_five f = true ->
         loss_cell format_1f repr_float (PFloat f)
         = "[red]" ++ format_1f f ++ "[/red]")
  /\ (forall text,
         loss_cell format_1f repr_float (PStr text)
         = "[red]" ++ text ++ "[/red]")
  /\ (forall n,
         (0 < n)%Z ->
         timeout_cell repr_float (PInt n)
         = Ok ("[yellow]" ++ str_py n ++ "[/yellow]"))
  /\ (forall n,
         (n <= 0)%Z -> timeout_cell repr_float (PInt n) = Ok (str_py n)).
Proof.
  refine (conj _ (conj _ (conj _ (conj _ (conj _ (conj _ _)))))).
  - intros []; reflexivity.
  - intros f H0 H5. unfold loss_cell.
    now rewrite (b64_leb_not_gt _ _ H5), H0.
  - reflexivity.
  - intros f H5. unfold loss_cell. now rewrite H5.
  - reflexivity.
  - intros n Hn. unfold timeout_cell.
    apply Z.ltb_lt in Hn. now rewrite Hn.
  - intros n Hn. unfold timeout_cell.
    apply Z.ltb_ge in Hn. now rewrite Hn.
Qed.

(** A loss of 2.5 percent is yellow, a loss of 5.5 percent is red and three
    timeouts are yellow. *)
Lemma severity_classification_witness :
  loss_cell (fun _ => "x") (fun _ => "y")
            (PFloat (decimal_to_b64 false 25 (-1))) = "[yellow]x[/yellow]"
  /\ loss_cell (fun _ => "x") (fun _ => "y")
               (PFloat (decimal_to_b64 false 55 (-1))) = "[red]x[/red]"
  /\ timeout_cell (fun _ => "y") (PInt 3) = Ok "[yellow]3[/yellow]".
Proof.
  pose proof (severity_classification (fun _ => "x") (fun _ => "y"))
    as (_ & Hwarn & _ & Hcrit & _ & Hto & _).
  split; [|split].
  - apply (Hwarn (decimal_to_b64 false 25 (-1))); reflexivity.
  - apply (Hcrit (decimal_to_b64 false 55 (-1))); reflexivity.
  - apply (Hto 3%Z); reflexivity.
Defined.

(** ** [int] and [float] on the texts the patterns capture *)

Ltac ascii_cases c :=
  destruct c as [[] [] [] [] [] [] [] []]; try discriminate; try reflexivity.

Lemma digit_or_dot_not_space (c : ascii) :
  digit_or_dot c = true -> not_space c = true.
Proof. ascii_cases c. Qed.

Lemma is_digit_digit_or_dot (c : ascii) :
  is_digit c = true -> digit_or_dot c = true.
Proof. unfold digit_or_dot. now intros ->. Qed.

Lemma lstrip_id (s : string) :
  all_chars not_space s = true -> lstrip s = s.
Proof.
  destruct s as [|c s]; simpl; [reflexivity|].
  intros H. apply andb_true_iff in H as [Hc _].
  unfold not_space in Hc. apply negb_true_iff in Hc. now rewrite Hc.
Qed.

Lemma rstrip_id (s : string) :
  all_chars not_space s = true -> rstrip s = s.
Proof.
  induction s as [|c s IH]; simpl; [reflexivity|].
  intros H. apply andb_true_iff in H as [Hc Hs]. rewrite (IH Hs).
  unfold not_space in Hc. apply negb_true_iff in Hc. rewrite Hc.
  now destruct s.
Qed.

Lemma strip_id (s : string) :
  all_chars not_space s = true -> strip s = s.
Proof. intros H. unfold strip. rewrite (lstrip_id _ H). now apply rstrip_id. Qed.

Lemma split_sign_digit (c : ascii) (s : string) :
  is_digit c = true -> split_sign (String c s) = (false, String c s).
Proof. ascii_cases c. Qed.

Lemma span_digits_run (d tail : string) (after_digit : bool) :
  all_chars is_digit d = true -> stops_digits tail = true ->
  span_digits after_digit (d ++ tail) = (d, tail).
Proof.
  intros Hd Ht. revert after_digit.
  induction d as [|c d IH]; intros after_digit; simpl in *.
  - destruct tail as [|c tail]; [reflexivity|]. simpl in Ht.
    apply andb_true_iff in Ht as [H1 H2].
    apply negb_true_iff in H1. apply negb_true_iff in H2.
    simpl. rewrite H1, H2. now rewrite andb_false_r.
  - apply andb_true_iff in Hd as [Hc Hd]. rewrite Hc, (IH Hd). reflexivity.
Qed.

Lemma span_digits_all (d : string) (after_digit : bool) :
  all_chars is_digit d = true -> span_digits after_digit d = (d, "").
Proof.
  intros Hd. rewrite <- (append_nil_r d) at 1.
  now apply span_digits_run.
Qed.

Lemma int_py_digits (c : ascii) (d : string) :
  all_chars is_digit (String c d) = true ->
  int_py (String c d) = Ok (Z.of_N (digits_value (String c d))).
Proof.
  intros H. unfold int_py.
  rewrite strip_id.
  2:{ eapply all_chars_impl; [|exact H].
      intros x Hx. now apply digit_or_dot_not_space, is_digit_digit_or_dot. }
  pose proof H as H'. simpl in H'. apply andb_true_iff in H' as [Hc _].
  rewrite (split_sign_digit _ _ Hc). cbn [fst snd].
  now rewrite (span_digits_all _ _ H).
Qed.

Lemma not_a_float_name (c : ascii) (s : string) :
  is_digit c = true ->
  String.eqb (lower_str (String c s)) "inf"
  || String.eqb (lower_str (String c s)) "infinity" = false
  /\ String.eqb (lower_str (String c s)) "nan" = false.
Proof. ascii_cases c; intros _; split; reflexivity. Qed.

(** [float] on a run of digits. *)
Lemma float_py_digits (c : ascii) (d : string) :
  all_chars is_digit (String c d) = true ->
  float_py (String c d)
  = Ok (decimal_to_b64 false (digits_value (String c d)) 0).
Proof.
  intros H. unfold float_py.
  rewrite strip_id.
  2:{ eapply all_chars_impl; [|exact H].
      intros x Hx. now apply digit_or_dot_not_space, is_digit_digit_or_dot. }
  pose proof H as H'. simpl in H'. apply andb_true_iff in H' as [Hc _].
  rewrite (split_sign_digit _ _ Hc). cbn [fst snd].
  destruct (not_a_float_name c d Hc) as [-> ->].
  rewrite (span_digits_all _ _ H). cbn [fst snd].
  rewrite append_nil_r. reflexivity.
Qed.

(** [float] on digits, a point and more digits (possibly none). *)
Lemma float_py_point (c : ascii) (d1 d2 : string) :
  all_chars is_digit (String c d1) = true ->
  all_chars is_digit d2 = true ->
  float_py (String c d1 ++ "." ++ d2)
  = Ok (decimal_to_b64 false (digits_value (String c d1 ++ d2))
          (0 - Z.of_nat (String.length d2))).
Proof.
  intros H1 H2. unfold float_py.
  rewrite strip_id.
  2:{ rewrite all_chars_append. apply andb_true_iff. split.
      - eapply all_chars_impl; [|exact H1].
        intros x Hx. now apply digit_or_dot_not_space, is_digit_digit_or_dot.
      - change (all_chars not_space (String "." d2) = true).
        eapply all_chars_impl; [exact digit_or_dot_not_space|].
        simpl. eapply all_chars_impl; [|exact H2].
        exact is_digit_digit_or_dot. }
  pose proof H1 as H'. simpl in H'. apply andb_true_iff in H' as [Hc _].
  change (String c d1 ++ "." ++ d2) with (String c (d1 ++ "." ++ d2)).
  rewrite (split_sign_digit _ _ Hc). cbn [fst snd].
  destruct (not_a_float_name c (d1 ++ "." ++ d2) Hc) as [-> ->].
  change (String c (d1 ++ "." ++ d2)) with (String c d1 ++ "." ++ d2).
  rewrite (span_digits_run (String c d1) ("." ++ d2) false H1 eq_refl).
  cbn [fst snd]. change ("." ++ d2) with (String "." d2).
  cbv iota beta.
  rewrite (span_digits_all _ _ H2). cbn [fst snd]. reflexivity.
Qed.

(** ** The sign of a converted decimal *)

Lemma plus_signed_nonneg (f : spec_float) :
  plus_signed f = true -> b64_leb b64_zero f = true.
Proof. destruct f as [[]|[]| |[] m e]; cbv; congruence. Qed.

Lemma iter_pos_invariant {A : Type} (P : A -> Prop) (f : A -> A) :
  (forall x, P x -> P (f x)) ->
  forall p x, P x -> P (iter_pos f p x).
Proof. intros Hf. induction p; intros x Hx; simpl; auto. Qed.

Lemma shr_1_nonneg (mrs : shr_record) :
  (0 <= shr_m mrs)%Z -> (0 <= shr_m (shr_1 mrs))%Z.
Proof.
  destruct mrs as [m r s]. simpl.
  destruct m as [|[p|p|]|p]; simpl; lia.
Qed.

Lemma shr_nonneg (mrs : shr_record) (e n : Z) :
  (0 <= shr_m mrs)%Z -> (0 <= shr_m (fst (shr mrs e n)))%Z.
Proof.
  intros H. destruct n as [|p|p]; simpl; try assumption.
  apply (iter_pos_invariant (fun x => (0 <= shr_m x)%Z)); [|assumption].
  exact shr_1_nonneg.
Qed.

Lemma shr_fexp_nonneg (m e : Z) (l : location) :
  (0 <= m)%Z -> (0 <= shr_m (fst (shr_fexp prec emax m e l)))%Z.
Proof.
  intros H. unfold shr_fexp. apply shr_nonneg.
  destruct l as [|[]]; assumption.
Qed.

Lemma round_nearest_even_nonneg (m : Z) (l : location) :
  (0 <= m)%Z -> (0 <= round_nearest_even m l)%Z.
Proof.
  intros H. destruct l as [|[]]; simpl; try lia.
  destruct (Z.even m); lia.
Qed.

Lemma binary_round_aux_plus (m e : Z) (l : location) :
  (0 <= m)%Z -> plus_signed (binary_round_aux prec emax false m e l) = true.
Proof.
  intros H. unfold binary_round_aux.
  pose proof (shr_fexp_nonneg m e l H) as H1.
  destruct (shr_fexp prec emax m e l) as [mrs' e']. simpl in H1.
  pose proof (shr_fexp_nonneg _ e' loc_Exact
                (round_nearest_even_nonneg _ (loc_of_shr_record mrs') H1))
    as H2.
  destruct (shr_fexp prec emax _ e' loc_Exact) as [mrs'' e'']. simpl in H2.
  destruct (shr_m mrs'') as [|p|p]; [reflexivity| |lia].
  now destruct (e'' <=? emax - prec)%Z.
Qed.

Lemma b64_div_plus (m1 m2 : positive) :
  plus_signed (b64_div (exact_operand false m1) (exact_operand false m2))
  = true.
Proof.
  unfold b64_div, exact_operand, SFdiv, SFdiv_core_binary.
  set (e' := Z.min _ _). set (m' := match (0 - 0 - e')%Z with
                                    | Z0 => Zpos m1
                                    | Zpos _ => Z.shiftl (Zpos m1) (0 - 0 - e')
                                    | Zneg _ => 0%Z
                                    end).
  assert (Hm' : (0 <= m')%Z).
  { unfold m'. destruct (0 - 0 - e')%Z; try lia.
    apply Z.shiftl_nonneg. lia. }
  pose proof (Z.div_pos m' (Zpos m2) Hm' ltac:(lia)) as Hq.
  unfold Z.div in Hq.
  destruct (Z.div_eucl m' (Zpos m2)) as [q r]. simpl in Hq.
  now apply binary_round_aux_plus.
Qed.

(** A decimal without a minus sign converts to a float that is not below
    zero (and is not a NaN). *)
Lemma decimal_to_b64_nonneg (m : N) (e10 : Z) :
  b64_leb b64_zero (decimal_to_b64 false m e10) = true.
Proof.
  apply plus_signed_nonneg. unfold decimal_to_b64.
  destruct m as [|p]; [reflexivity|].
  destruct (0 <=? e10)%Z; apply b64_div_plus.
Qed.

(** ** What the three patterns capture *)

Ltac invert_matches :=
  repeat match goal with
         | H : Matches (RSeq _ _) _ _ |- _ => inversion H; subst; clear H
         | H : Matches (RGroup _) _ _ |- _ => inversion H; subst; clear H
         | H : Matches (RLit _) _ _ |- _ => inversion H; subst; clear H
         | H : Matches (RPlus _) _ _ |- _ => inversion H; subst; clear H
         | H : Matches (RStar _) _ _ |- _ => inversion H; subst; clear H
         | H : Matches (ROpt _) _ _ |- _ => inversion H; subst; clear H
         end.

Lemma all_digits_cons (c : ascii) (d : string) :
  in_set CDigit c = true -> all_chars (in_set CDigit) d = true ->
  all_chars is_digit (String c d) = true.
Proof.
  intros Hc Hd. change (is_digit c && all_chars is_digit d = true).
  apply andb_true_iff. split; [exact Hc|exact Hd].
Qed.

(** The text of a packet-loss number converts, and not below zero. *)
Lemma loss_number_float (c : ascii) (d1 dot d2 : string) :
  in_set CDigit c = true -> all_chars (in_set CDigit) d1 = true ->
  Matches (ROpt (CChar ".")) dot [] ->
  all_chars (in_set CDigit) d2 = true ->
  exists f, float_py (String c d1 ++ dot ++ d2) = Ok f
            /\ b64_leb b64_zero f = true.
Proof.
  intros Hc H1 Hdot H2. inversion Hdot as [|? | ? x Hx| | | |]; subst.
  - eexists. split; [|apply decimal_to_b64_nonneg].
    apply (float_py_digits c (d1 ++ d2)).
    change (is_digit c && all_chars is_digit (d1 ++ d2) = true).
    rewrite all_chars_append. change (in_set CDigit) with is_digit in *.
    now rewrite Hc, H1, H2.
  - simpl in Hx. apply Ascii.eqb_eq in Hx. subst x.
    eexists. split; [|apply decimal_to_b64_nonneg].
    apply float_py_point; [now apply all_digits_cons|exact H2].
Qed.

Lemma packet_loss_capture (w : string) (caps : list string) :
  Matches packet_loss_pat w caps ->
  exists g f,
    caps = [g] /\ w = g ++ "% packet loss"
    /\ float_py g = Ok f /\ b64_leb b64_zero f = true.
Proof.
  unfold packet_loss_pat. intros M.
  inversion M as [| | | | |? ? w1 w2 g1 g2 Mg Ml|]; subst; clear M.
  inversion Ml; subst; clear Ml.
  inversion Mg as [| | | | | |? ? ? Mn]; subst; clear Mg.
  inversion Mn as [| | | | |? ? wa wb ? ? Ma Mb|]; subst; clear Mn.
  inversion Mb as [| | | | |? ? wc wd ? ? Mc Md|]; subst; clear Mb.
  inversion Ma as [| | | |? c d1 Hc H1| |]; subst; clear Ma.
  inversion Md as [| | |? ? H2| | |]; subst; clear Md.
  inversion Mc as [|? | ? x Hx| | | |]; subst;
    (destruct (loss_number_float c d1 _ wd Hc H1 Mc H2) as (f & Hf & Hn);
     eexists _, f; repeat split; [exact Hf|exact Hn]).
Qed.

Lemma packet_stats_capture (w : string) (caps : list string) :
  Matches packet_stats_pat w caps ->
  exists g1 g2,
    caps = [g1; g2]
    /\ w = g1 ++ " packets transmitted, " ++ g2 ++ " packets received"
    /\ int_py g1 = Ok (Z.of_N (digits_value g1))
    /\ int_py g2 = Ok (Z.of_N (digits_value g2)).
Proof.
  unfold packet_stats_pat. intros M. invert_matches.
  exists (String c w), (String c0 w0).
  repeat split; apply int_py_digits; now apply all_digits_cons.
Qed.

Lemma rtt_capture (w : string) (caps : list string) :
  Matches rtt_pat w caps ->
  exists a b c d,
    caps = [a; b; c; d]
    /\ w = "round-trip min/avg/max/stddev = "
           ++ a ++ "/" ++ b ++ "/" ++ c ++ "/" ++ d ++ " ms"
    /\ all_chars digit_or_dot a = true /\ a <> ""
    /\ all_chars digit_or_dot b = true /\ b <> ""
    /\ all_chars digit_or_dot c = true /\ c <> ""
    /\ all_chars digit_or_dot d = true /\ d <> "".
Proof.
  unfold rtt_pat. intros M. invert_matches.
  exists (String c w), (String c0 w0), (String c1 w1), (String c2 w2).
  change (in_set CDigitDot) with digit_or_dot in *.
  repeat split; try discriminate;
    (change (all_chars digit_or_dot (String ?x ?y))
       with (digit_or_dot x && all_chars digit_or_dot y);
     apply andb_true_iff; split; assumption).
Qed.

(** ** [re.findall] of a literal counts its occurrences *)

Lemma clear_of_body (a : ascii) (body tail : string) :
  has_char a body = false ->
  clear_of a (String.length body) (body ++ tail) = true.
Proof.
  induction body as [|x body IH]; simpl; [reflexivity|].
  intros H. apply orb_false_iff in H as [Hx Hb].
  rewrite Hx, (IH Hb). reflexivity.
Qed.

Lemma strip_prefix_other (a x : ascii) (body s : string) :
  Ascii.eqb a x = false -> strip_prefix (String a body) (String x s) = None.
Proof. simpl. now intros ->. Qed.

(** A literal whose first character does not come back later in it cannot
    overlap itself, so the left-to-right scan of [findall] finds every
    position at which it begins. *)
Lemma findall_from_literal (a : ascii) (body : string) :
  has_char a body = false ->
  forall s k,
    clear_of a k s = true ->
    List.length (findall_from (RLit (String a body)) k s)
    = occurrences (String a body) s.
Proof.
  intros Hbody. induction s as [|x s IH]; intros k Hk.
  - destruct k; reflexivity.
  - destruct k as [|k].
    + cbn [findall_from occurrences]. unfold match_at. cbn [matches].
      destruct (strip_prefix (String a body) (String x s)) as [s'|] eqn:E.
      * cbn [hd_error matched plain_hit fst List.length].
        apply strip_prefix_spec in E. injection E as -> ->.
        replace (String.length (String a body) - 1)%nat
          with (String.length body) by (cbn [String.length]; lia).
        rewrite (IH _ (clear_of_body _ _ _ Hbody)). reflexivity.
      * cbn [hd_error]. now rewrite (IH 0%nat).
    + cbn [clear_of] in Hk. apply andb_true_iff in Hk as [Hx Hk].
      apply negb_true_iff in Hx.
      cbn [findall_from occurrences].
      rewrite (strip_prefix_other _ _ _ _ Hx), (IH _ Hk). reflexivity.
Qed.

Lemma findall_timeout_count (s : string) :
  List.length (findall timeout_pat s) = occurrences timeout_marker s.
Proof.
  unfold findall, timeout_pat, timeout_marker.
  now apply findall_from_literal.
Qed.


(** ** parse_ping_output, field by field *)

Lemma search_packet_loss (s : string) :
  (search packet_loss_pat s = None /\ ~ contains_match packet_loss_pat s)
  \/ (exists g f,
         search packet_loss_pat s = Some [g]
         /\ float_py g = Ok f /\ b64_leb b64_zero f = true).
Proof.
  destruct (search packet_loss_pat s) as [caps|] eqn:E.
  - right. apply search_sound in E as (pre & w & post & _ & M).
    apply packet_loss_capture in M as (g & f & -> & _ & Hf & Hn).
    exists g, f. auto.
  - left. split; [reflexivity|now apply search_none_iff].
Qed.

Lemma search_packet_stats (s : string) :
  (search packet_stats_pat s = None /\ ~ contains_match packet_stats_pat s)
  \/ (exists g1 g2,
         search packet_stats_pat s = Some [g1; g2]
         /\ int_py g1 = Ok (Z.of_N (digits_value g1))
         /\ int_py g2 = Ok (Z.of_N (digits_value g2))).
Proof.
  destruct (search packet_stats_pat s) as [caps|] eqn:E.
  - right. apply search_sound in E as (pre & w & post & _ & M).
    apply packet_stats_capture in M as (g1 & g2 & -> & _ & H1 & H2).
    exists g1, g2. auto.
  - left. split; [reflexivity|now apply search_none_iff].
Qed.

Lemma search_rtt (s : string) :
  (search rtt_pat s = None /\ ~ contains_match rtt_pat s)
  \/ (exists a b c d,
         search rtt_pat s = Some [a; b; c; d]
         /\ all_chars digit_or_dot (a ++ b ++ c ++ d) = true).
Proof.
  destruct (search rtt_pat s) as [caps|] eqn:E.
  - right. apply search_sound in E as (pre & w & post & _ & M).
    apply rtt_capture in M
      as (a & b & c & d & -> & _ & Ha & _ & Hb & _ & Hc & _ & Hd & _).
    exists a, b, c, d. split; [reflexivity|].
    rewrite !all_chars_append, Ha, Hb, Hc, Hd. reflexivity.
  - left. split; [reflexivity|now apply search_none_iff].
Qed.

(** The parser returns a record whatever the text, and each field is
    settled by its own pattern alone. *)
Lemma parse_ping_output_fields (s : string) :
  exists st,
    parse_ping_output s = Ok st
    /\ ((~ contains_match packet_loss_pat s
         /\ packet_loss st = PStr "Error")
        \/ (exists g f,
               search packet_loss_pat s = Some [g]
               /\ float_py g = Ok f /\ b64_leb b64_zero f = true
               /\ packet_loss st = PFloat f))
    /\ ((~ contains_match packet_stats_pat s
         /\ packets_transmitted st = PStr "N/A"
         /\ packets_received st = PStr "N/A")
        \/ (exists g1 g2,
               search packet_stats_pat s = Some [g1; g2]
               /\ int_py g1 = Ok (Z.of_N (digits_value g1))
               /\ int_py g2 = Ok (Z.of_N (digits_value g2))
               /\ packets_transmitted st = PInt (Z.of_N (digits_value g1))
               /\ packets_received st = PInt (Z.of_N (digits_value g2))))
    /\ ((~ contains_match rtt_pat s
         /\ rtt_min st = PStr "N/A" /\ rtt_avg st = PStr "N/A"
         /\ rtt_max st = PStr "N/A" /\ rtt_stddev st = PStr "N/A")
        \/ (exists a b c d,
               search rtt_pat s = Some [a; b; c; d]
               /\ all_chars digit_or_dot (a ++ b ++ c ++ d) = true
               /\ rtt_min st = PStr a /\ rtt_avg st = PStr b
               /\ rtt_max st = PStr c /\ rtt_stddev st = PStr d))
    /\ timeout_count st = PInt (Z.of_nat (occurrences timeout_marker s)).
Proof.
  unfold parse_ping_output. rewrite findall_timeout_count.
  destruct (search_packet_loss s) as [[-> Nl]|(g & f & -> & Hf & Hn)];
    destruct (search_packet_stats s) as [[-> Ns]|(g1 & g2 & -> & H1 & H2)];
    destruct (search_rtt s) as [[-> Nr]|(a & b & c & d & -> & Hr)];
    cbn [group_py group nth_error Nat.sub bind];
    rewrite ?Hf, ?H1, ?H2; cbn [bind fst snd];
    (eexists; split; [reflexivity|]); cbn;
    (split; [|split; [|split; [|reflexivity]]]);
    first [ left; now auto | right; eauto 12 ].
Qed.



(** C8.  A text with exactly two timeout markers, no packet-loss line and no
    transmitted/received line parses to packet loss "Error", timeout count 2
    and both packet counts "N/A". *)
Theorem two_timeouts_no_statistics (ping_output : string) :
  occurrences timeout_marker ping_output = 2%nat ->
  ~ contains_match packet_loss_pat ping_output ->
  ~ contains_match packet_stats_pat ping_output ->
  exists st,
    parse_ping_output ping_output = Ok st
    /\ packet_loss st = PStr "Error"
    /\ timeout_count st = PInt 2
    /\ packets_transmitted st = PStr "N/A"
    /\ packets_received st = PStr "N/A".
Proof.
  intros Hocc Nl Ns.
  destruct (parse_ping_output_fields ping_output)
    as (st & E & Hl & Hs & _ & Ht).
  exists st. split; [exact E|].
  destruct Hl as [[_ Hl]|(g & f & Sl & _)].
  2:{ exfalso. apply search_none_iff in Nl. congruence. }
  destruct Hs as [(_ & Hs1 & Hs2)|(g1 & g2 & Ss & _)].
  2:{ exfalso. apply search_none_iff in Ns. congruence. }
  rewrite Hocc in Ht. auto.
Qed.

Lemma two_timeouts_no_statistics_witness :
  exists st,
    parse_ping_output scenario_b = Ok st
    /\ packet_loss st = PStr "Error"
    /\ timeout_count st = PInt 2
    /\ packets_transmitted st = PStr "N/A"
    /\ packets_received st = PStr "N/A".
Proof.
  apply (two_timeouts_no_statistics scenario_b).
  - reflexivity.
  - apply search_none_iff. reflexivity.
  - apply search_none_iff. reflexivity.
Defined.

(** ** Scenario A: a statistics line and a round-trip line *)

(** Filler text in which no match of [r] can begin is skipped by [search]. *)
Lemma search_skip (r : regex) (p : ascii -> bool) :
  (forall c s, p c = true -> match_at r (String c s) = None) ->
  forall pre s, all_chars p pre = true -> search r (pre ++ s) = search r s.
Proof.
  intros Hp. induction pre as [|c pre IH]; intros s; [reflexivity|].
  cbn [all_chars]. intros H. apply andb_true_iff in H as [Hc Hpre].
  change (String c pre ++ s) with (String c (pre ++ s)).
  cbn [search]. rewrite (Hp _ _ Hc). now apply IH.
Qed.

Lemma packet_loss_starts_with_digit (c : ascii) (s : string) :
  not_digit c = true -> match_at packet_loss_pat (String c s) = None.
Proof.
  unfold not_digit. intros H. apply negb_true_iff in H.
  unfold match_at, packet_loss_pat. cbn. now rewrite H.
Qed.

Lemma packet_stats_starts_with_digit (c : ascii) (s : string) :
  not_digit c = true -> match_at packet_stats_pat (String c s) = None.
Proof.
  unfold not_digit. intros H. apply negb_true_iff in H.
  unfold match_at, packet_stats_pat. cbn. now rewrite H.
Qed.

Lemma matches_after_literal (lit : string) (r : regex) (s : string) :
  strip_prefix lit s = None -> matches (RLit lit >> r)%re s = [].
Proof. intros H. cbn [matches]. now rewrite H. Qed.

Lemma rtt_starts_with_r (c : ascii) (s : string) :
  negb (Ascii.eqb "r" c) = true -> match_at rtt_pat (String c s) = None.
Proof.
  intros H. apply negb_true_iff in H.
  unfold match_at, rtt_pat. rewrite matches_after_literal; [reflexivity|].
  now apply strip_prefix_other.
Qed.

Lemma has_char_all_chars (a : ascii) (s : string) :
  has_char a s = false -> all_chars (fun c => negb (Ascii.eqb a c)) s = true.
Proof.
  induction s as [|x s IH]; simpl; [reflexivity|].
  intros H. apply orb_false_iff in H as [-> Hs]. now rewrite (IH Hs).
Qed.



(** ** Sorting by key *)







(** ** The collecting loop and the table *)






















(** ** The compiled-in configuration *)






(** ** One row per host (claim C2) *)



(** ** The order of the report (claim C5) *)



(** ** [str] of an integer and back *)






(** ** A ping that runs into the timeout (claim C3) *)












(** ** The packet count is taken as it comes (claim C10) *)



(** ** Configuration mistakes (claim C6) *)








(** * Further properties of the script *)

(** ** Text in front of the output *)

Lemma occurrences_skip (a : ascii) (body pre s : string) :
  has_char a pre = false ->
  occurrences (String a body) (pre ++ s) = occurrences (String a body) s.
Proof.
  induction pre as [|x pre IH]; [reflexivity|].
  cbn [has_char]. intros H. apply orb_false_iff in H as [Hx Hpre].
  change (String x pre ++ s) with (String x (pre ++ s)).
  cbn [occurrences]. now rewrite (strip_prefix_other _ _ _ _ Hx), (IH Hpre).
Qed.

(** X7.  Text put in front of the output changes nothing in the parsed
    record when it holds no digit, no "r" and no "R": no pattern of
    parse_ping_output can begin in it. *)
Theorem leading_filler_ignored (pre ping_output : string) :
  all_chars not_digit pre = true ->
  has_char "r" pre = false ->
  has_char "R" pre = false ->
  parse_ping_output (pre ++ ping_output) = parse_ping_output ping_output.
Proof.
  intros Hdig Hr HR. unfold parse_ping_output.
  rewrite !findall_timeout_count.
  rewrite (search_skip _ _ packet_loss_starts_with_digit _ _ Hdig).
  rewrite (search_skip _ _ packet_stats_starts_with_digit _ _ Hdig).
  rewrite (search_skip _ _ rtt_starts_with_r _ _ (has_char_all_chars _ _ Hr)).
  unfold timeout_marker. now rewrite (occurrences_skip _ _ _ _ HR).
Qed.

Lemma leading_filler_ignored_witness :
  parse_ping_output ("--- ping statistics ---" ++ newline ++ scenario_a)
  = parse_ping_output scenario_a.
Proof.
  apply (leading_filler_ignored ("--- ping statistics ---" ++ newline)
           scenario_a); reflexivity.
Defined.

(** ** A count that is no integer *)

Lemma lstrip_keeps (p : ascii -> bool) (s : string) :
  (forall c, is_space c = true -> p c = true) ->
  all_chars p (lstrip s) = true -> all_chars p s = true.
Proof.
  intros Hp. induction s as [|c s IH]; [reflexivity|].
  cbn [lstrip]. destruct (is_space c) eqn:Ec.
  - intros H. cbn [all_chars]. now rewrite (Hp _ Ec), (IH H).
  - trivial.
Qed.

Lemma rstrip_keeps (p : ascii -> bool) (s : string) :
  (forall c, is_space c = true -> p c = true) ->
  all_chars p (rstrip s) = true -> all_chars p s = true.
Proof.
  intros Hp. induction s as [|c s IH]; [reflexivity|].
  cbn [rstrip]. destruct (rstrip s) as [|x r] eqn:Er.
  - destruct (is_space c) eqn:Ec.
    + intros _. cbn [all_chars]. now rewrite (Hp _ Ec), (IH eq_refl).
    + cbn [all_chars]. intros H. apply andb_true_iff in H as [Hc _].
      now rewrite Hc, (IH eq_refl).
  - cbn [all_chars]. intros H. apply andb_true_iff in H as [Hc Hr].
    rewrite Hc. apply IH. exact Hr.
Qed.

Lemma span_digits_consumes (s : string) :
  forall after_digit ds,
    span_digits after_digit s = (ds, "") -> all_chars int_char s = true.
Proof.
  induction s as [|c s IH]; intros after_digit ds; [reflexivity|].
  cbn [span_digits all_chars]. unfold int_char at 1.
  destruct (is_digit c) eqn:Ed.
  - intros [= _ H]. cbn [orb andb].
    apply (IH true (fst (span_digits true s))).
    now destruct (span_digits true s); cbn [snd] in H; subst.
  - destruct (after_digit && Ascii.eqb c "_") eqn:Eu; [|discriminate].
    apply andb_true_iff in Eu as [_ Eu]. rewrite Eu.
    rewrite orb_true_r. cbn [orb andb].
    destruct s as [|c' s']; [discriminate|].
    destruct (is_digit c'); [|discriminate].
    apply IH.
Qed.

(** A text that [int] converts is made of digits, white space, underscores
    and signs only. *)
Lemma int_py_chars (text : string) (n : Z) :
  int_py text = Ok n -> all_chars int_char text = true.
Proof.
  unfold int_py, strip. intros H.
  assert (Hsp : forall c, is_space c = true -> int_char c = true).
  { intros c Hc. unfold int_char. rewrite Hc. now rewrite orb_true_r. }
  apply (lstrip_keeps _ _ Hsp), (rstrip_keeps _ _ Hsp).
  destruct (span_digits false (snd (split_sign (rstrip (lstrip text)))))
    as [ds tail] eqn:E.
  destruct ds as [|d ds]; [discriminate|].
  destruct tail; [|discriminate].
  apply span_digits_consumes in E.
  destruct (rstrip (lstrip text)) as [|c body]; [reflexivity|].
  revert E. unfold split_sign.
  destruct (Ascii.eqb_spec c "-") as [->|N1]; [now cbn|].
  destruct (Ascii.eqb_spec c "+") as [->|N2]; [now cbn|].
  assert (E' : (match c with
                | "-"%char => (true, body)
                | "+"%char => (false, body)
                | _ => (false, String c body)
                end) = (false, String c body)).
  { clear -N1 N2.
    destruct c as [[] [] [] [] [] [] [] []]; try reflexivity; congruence. }
  rewrite E'. trivial.
Qed.

(** X9.  When the text given with -c/--count holds a character that an
    integer literal cannot hold (anything but digits, white space, "_", "+"
    and "-"), the run stops with exit status 2 before the script prints its
    first line, creates the log directory or pings any host.  (The usage
    message argparse itself writes is not part of the trace.) *)
Theorem invalid_count_exits_first
        (format_1f repr_float : spec_float -> string)
        (text now : string) (w : world)
        (delivery : list host_info -> list host_info) :
  all_chars int_char text = false ->
  main format_1f repr_float (Some text) now w delivery
  = ([], Raise (SystemExit 2)).
Proof.
  intros H. unfold main, main_with, parse_args.
  destruct (int_py text) as [n|e] eqn:E.
  - apply int_py_chars in E. congruence.
  - reflexivity.
Qed.

Lemma invalid_count_exits_first_witness :
  main fixed_format fixed_format (Some "1.5") "2024-01-01 00:00:00"
       modem_down (fun l => l)
  = ([], Raise (SystemExit 2)).
Proof.
  apply (invalid_count_exits_first fixed_format fixed_format "1.5").
  reflexivity.
Defined.

(** ** Names of the log files *)

Lemma append_inj_r (x y s : string) : x ++ s = y ++ s -> x = y.
Proof.
  intros H.
  assert (L : String.length x = String.length y).
  { apply (f_equal String.length) in H. rewrite !length_append in H. lia. }
  revert y H L. induction x as [|a x IH]; intros [|b y]; cbn;
    try discriminate; [reflexivity|].
  intros [= <- H] [= L]. f_equal. now apply IH.
Qed.

Lemma replace_spaces_inj (a b : string) :
  has_char "_" a = false -> has_char "_" b = false ->
  replace_spaces a = replace_spaces b -> a = b.
Proof.
  revert b. induction a as [|x a IH]; intros [|y b]; cbn;
    try discriminate; [reflexivity|].
  intros Ha Hb. apply orb_false_iff in Ha as [Hx Ha].
  apply orb_false_iff in Hb as [Hy Hb].
  intros [= Hxy Hab]. rewrite (IH b Ha Hb Hab). f_equal.
  destruct (Ascii.eqb_spec x " ") as [->|Nx],
           (Ascii.eqb_spec y " ") as [->|Ny]; try reflexivity.
  - subst y. discriminate.
  - subst x. discriminate.
  - exact Hxy.
Qed.

(** X3.  Two different host names without an underscore get different log
    file names: replacing spaces by underscores cannot make two such names
    collide. *)
Theorem log_filename_injective (a b : string) :
  has_char "_" a = false -> has_char "_" b = false ->
  a <> b -> log_filename a <> log_filename b.
Proof.
  intros Ha Hb Hne H. apply Hne. unfold log_filename, log_dir in H.
  cbn [append] in H. injection H as H.
  apply append_inj_r in H. now apply replace_spaces_inj.
Qed.

Lemma log_filename_injective_witness :
  log_filename "Google DNS" <> log_filename "GoogleDNS".
Proof.
  apply (log_filename_injective "Google DNS" "GoogleDNS");
    [reflexivity|reflexivity|discriminate].
Defined.

(** ** The round-trip fields *)


(** ** The colour of a parsed packet loss *)




(** ** From the parsed record to the table row *)


(** ** The log files of a run *)








(** ** An empty host dictionary *)

(** X8.  With no host configured, the run prints its opening lines and
    creates the log directory, then stops with the ValueError of a pool of
    zero processes: nothing is pinged, no file is written, no table is
    printed. *)
Theorem empty_hosts_stop_at_the_pool
        (format_1f repr_float : spec_float -> string)
        (order : list string) (cli_count : option string) (args : Namespace)
        (now : string) (w : world)
        (delivery : list host_info -> list host_info) :
  parse_args cli_count = Ok args ->
  exists trace,
    main_with format_1f repr_float
              {| hosts := []; display_order := order |}
              cli_count now w delivery
    = (trace, Raise (ValueError "Number of processes must be at least 1"))
    /\ In (MakeDirs log_dir) trace
    /\ pings_run trace = []
    /\ files_written trace = []
    /\ printed_table trace = None.
Proof.
  intros Hargs. unfold main_with. rewrite Hargs.
  unfold io_bind, lift, emit, io_ret. cbn [hosts List.length Nat.eqb fst snd app].
  eexists. split; [reflexivity|]. cbn. auto.
Qed.

Lemma empty_hosts_stop_at_the_pool_witness :
  exists trace,
    main_with fixed_format fixed_format
              {| hosts := []; display_order := DISPLAY_ORDER |}
              None "2024-01-01 00:00:00" modem_down (fun l => l)
    = (trace, Raise (ValueError "Number of processes must be at least 1"))
    /\ In (MakeDirs log_dir) trace
    /\ pings_run trace = []
    /\ files_written trace = []
    /\ printed_table trace = None.
Proof.
  apply (empty_hosts_stop_at_the_pool fixed_format fixed_format
           DISPLAY_ORDER None {| count := 10 |} "2024-01-01 00:00:00"
           modem_down (fun l => l) eq_refl).
Defined.

(** ** The order of the report, for any configuration *)











(** ** Logging does not wait for the report *)



(** ** The timeouts cell of a parsed text *)

